(** * code-standard: the [MyFunctionComponent] React example

    A shallow embedding of [react-code-standard/src/ReactBasics.tsx], of its
    second copy (the unnamed source file that adds list keys and a button)
    and of the props the bootstrap file passes.

    - Props and farm records are records; an optional prop is an [option].
    - The value held by the [useState] cell and the value a remote call
      resolves to are run-time JavaScript values: TypeScript's types are
      erased, so they are modelled as [nullable] values and the absence of
      [undefined]/[null] is something to prove, not something assumed.
    - JSX is a tree of [ReactNode]s; [null] is [None].
    - Hooks are modelled by an explicit component instance: the state cell,
      the console, the queue of promise continuations (microtasks) and the
      trace of [setFarms] calls.  Effects run after the commit that scheduled
      them, in declaration order, and an effect with dependencies runs on
      mount and after every render in which a dependency changed.  This is
      how hooks behave in a production build; the extra mount that
      [React.StrictMode] performs in development is not modelled. *)

From stdpp Require Import base list strings pretty.
From Stdlib Require Import ZArith.

Set Warnings "-register-all".

(** ** Data model *)

(** [interface IFarms] *)
Record IFarms := {
  name : string;
  id : Z;
  location : option string
}.

(** [interface Props]: [footerText] is required but may be [undefined];
    [show] may be omitted. *)
Record Props := {
  label : string;
  url : string;
  footerText : option string;
  show : option bool
}.

(** A run-time value that may be [undefined] or [null]. *)
Inductive nullable (A : Type) : Type :=
| undefined
| null
| defined (a : A).
Arguments undefined {A}.
Arguments null {A}.
Arguments defined {A} a.

(** [l ?? r]: the left operand unless it is [undefined] or [null]. *)
Definition nullish_coalesce {A} (l r : nullable A) : nullable A :=
  match l with
  | defined _ => l
  | undefined | null => r
  end.
Infix "??" := nullish_coalesce (at level 45, left associativity).

(** A settled promise. *)
Inductive Promise (A : Type) : Type :=
| resolved (a : A)
| rejected (reason : string).
Arguments resolved {A} a.
Arguments rejected {A} reason.

(** What [console.log] has printed, oldest line first. *)
Definition Console := list string.

(** ** Rendered output *)

Inductive AttrValue :=
| attr_string (s : string)
| attr_handler (arg : string).   (* () => { onClickHandler(arg) } *)

Inductive ReactNode :=
| text (s : string)
| element (tag : string) (key : option string)
          (attrs : list (string * AttrValue)) (children : list ReactNode)
| fragment (children : list ReactNode)
| node_array (items : list ReactNode).

(** The outcome of evaluating the component body. *)
Inductive Result (A : Type) : Type :=
| ok (a : A)
| type_error.
Arguments ok {A} a.
Arguments type_error {A}.

(** [xs.map(f)] on a run-time value: a [TypeError] when [xs] is nullish. *)
Definition array_map {A B} (xs : nullable (list A)) (f : A → B) : Result (list B) :=
  match xs with
  | defined l => ok (map f l)
  | undefined | null => type_error
  end.

(** [xs.map((x, index) => f)] *)
Definition array_mapi {A B} (xs : nullable (list A)) (f : A → nat → B) : Result (list B) :=
  match xs with
  | defined l => ok (imap (λ index x, f x index) l)
  | undefined | null => type_error
  end.

(** *** Observations on the output *)

(** The text a node shows. *)
Fixpoint textContent (n : ReactNode) : string :=
  match n with
  | text s => s
  | element _ _ _ cs | fragment cs | node_array cs =>
      String.concat "" (map textContent cs)
  end.

(** The text of every [<p>] of a node, in document order. *)
Fixpoint paragraphs (n : ReactNode) : list string :=
  match n with
  | text _ => []
  | element tag _ _ cs =>
      if String.eqb tag "p" then [String.concat "" (map textContent cs)]
      else concat (map paragraphs cs)
  | fragment cs | node_array cs => concat (map paragraphs cs)
  end.

(** [haystack.includes(needle)] *)
Fixpoint includes (haystack needle : string) : bool :=
  String.prefix needle haystack ||
  match haystack with
  | EmptyString => false
  | String _ rest => includes rest needle
  end.

(** The props of the bootstrap file. *)
Definition bootstrap_props : Props :=
  {| label := "This is the code quality repo";
     url := "www.google.com";
     footerText := Some "This is the footer";
     show := None |}.

(** ** [ReactBasics.tsx] *)
Module ReactBasics.

Definition azureFunctionCall (url : string) (out : Console)
  : Promise (nullable (list IFarms)) * Console :=
  let out := out ++ [url] in                                  (* console.log(url) *)
  (resolved (defined [ {| name := "farm2"; id := 2; location := None |} ]), out).

Definition isNonEmptyString (str : option string) : bool :=
  match str with
  | Some s => (0 <? String.length s)%nat   (* typeof str === 'string' && str.length > 0 *)
  | None => false                          (* typeof undefined is not 'string' *)
  end.

(** [getFooterText] closes over the [footerText] prop. *)
Definition getFooterText (footerText : option string) : string :=
  if isNonEmptyString footerText
  then match footerText with
       | Some s => s
       | None => "no footer"   (* not reached: the guard narrowed it to a string *)
       end
  else "no footer".

(** The value the component body returns, from the props and the current
    content of the [farms] state cell. *)
Definition MyFunctionComponent (props : Props) (farms : nullable (list IFarms))
  : Result (option ReactNode) :=
  let show := default true (show props) in
  if show then
    match array_map farms (λ farm, element "p" None [] [text (name farm)]) with
    | ok ps =>
        ok (Some (fragment
          [ node_array ps;
            element "p" None [] [text (getFooterText (footerText props))] ]))
    | type_error => type_error
    end
  else ok None.

(** *** Hooks: the component instance *)

(** A promise continuation waiting in the microtask queue: the rest of
    [fetchImportantData] after its [await], with the awaited value. *)
Inductive Task :=
| resume_fetchImportantData (awaited : nullable (list IFarms)).

Record Instance := {
  inst_props : Props;                            (* props of the last render *)
  farms : nullable (list IFarms);                (* the useState cell *)
  console : Console;
  microtasks : list Task;                        (* oldest first *)
  setFarms_log : list (nullable (list IFarms))   (* every setFarms argument, oldest first *)
}.

(** Code of the component body that runs against the instance. *)
Definition M (A : Type) : Type := Instance → A * Instance.

Definition ret {A} (a : A) : M A := λ s, (a, s).
Definition bind {A B} (m : M A) (k : A → M B) : M B :=
  λ s, let '(a, s') := m s in k a s'.
Definition exec {A} (m : M A) (s : Instance) : Instance := snd (m s).

Notation "'let*' x ':=' m 'in' k" := (bind m (λ x, k))
  (at level 10, x pattern, m at level 100, k at level 200, only parsing).
Notation "m ';;' k" := (bind m (λ _, k))
  (at level 100, k at level 200, right associativity, only parsing).

Definition setFarms (value : nullable (list IFarms)) : M unit :=
  λ s, (tt, {| inst_props := inst_props s;
               farms := value;
               console := console s;
               microtasks := microtasks s;
               setFarms_log := setFarms_log s ++ [value] |}).

(** Run code that only sees the console. *)
Definition with_console {A} (f : Console → A * Console) : M A :=
  λ s, let '(a, out) := f (console s) in
       (a, {| inst_props := inst_props s;
              farms := farms s;
              console := out;
              microtasks := microtasks s;
              setFarms_log := setFarms_log s |}).

Definition enqueue (t : Task) : M unit :=
  λ s, (tt, {| inst_props := inst_props s;
               farms := farms s;
               console := console s;
               microtasks := microtasks s ++ [t];
               setFarms_log := setFarms_log s |}).

(** [await p] inside [fetchImportantData]: a resolved promise queues the
    continuation with its value; a rejected one makes the [await] throw, so
    the rest of the function never runs. *)
Definition await (p : Promise (nullable (list IFarms))) : M unit :=
  match p with
  | resolved v => enqueue (resume_fetchImportantData v)
  | rejected _ => ret tt
  end.

(** The first render: [useState<IFarms[]>([])]. *)
Definition first_render (props : Props) (out : Console) : Instance :=
  {| inst_props := props;
     farms := defined [];
     console := out;
     microtasks := [];
     setFarms_log := [] |}.

(** [useEffect(function fetchFarms() {...}, [])] *)
Definition fetchFarms : M unit :=
  let results := defined [ {| name := "farm1"; id := 1; location := None |} ] in
  setFarms results.

(** The rest of [async function fetchImportantData(url)], after its
    [await]. *)
Definition run_task (t : Task) : M unit :=
  match t with
  | resume_fetchImportantData awaited =>
      let importantData := awaited ?? defined [] in
      setFarms importantData
  end.

(** The event loop runs the oldest microtask. *)
Definition microtask : M unit :=
  λ s,
    match microtasks s with
    | [] => (tt, s)
    | t :: rest =>
        run_task t {| inst_props := inst_props s;
                      farms := farms s;
                      console := console s;
                      microtasks := rest;
                      setFarms_log := setFarms_log s |}
    end.

(** Run microtasks until the queue is empty.  No task queues another
    one, so as many turns as the queue is long are enough. *)
Definition drain (s : Instance) : Instance :=
  Nat.iter (length (microtasks s)) (exec microtask) s.

(** What the component shows in a given state. *)
Definition view (s : Instance) : Result (option ReactNode) :=
  MyFunctionComponent (inst_props s) (farms s).

(** What can happen to a mounted component. *)
Inductive Event :=
| ev_render (props : Props)   (* the parent renders it with these props *)
| ev_microtask.               (* the event loop runs a continuation *)

Section RemoteCall.
(** The hooks are generic in the remote call they await: any function of
    the declared type [(url: string) => Promise<IFarms[] | undefined>],
    which has no access to the component's state. *)
Variable call : string → Console → Promise (nullable (list IFarms)) * Console.

(** [async function fetchImportantData(url)], up to its [await]. *)
Definition fetchImportantData (url : string) : M unit :=
  let* p := with_console (call url) in
  await p.

(** Mounting: the first render commits, then both effects run in the
    order they are declared. *)
Definition mount (props : Props) (out : Console) : Instance :=
  exec (fetchFarms ;; fetchImportantData (url props)) (first_render props out).

(** A render with new props: the effect with dependencies [[]] does not
    run again, the one with [[url]] runs when [url] changed. *)
Definition rerender (props : Props) : M unit :=
  λ s,
    let url_changed := negb (String.eqb (url (inst_props s)) (url props)) in
    let s' := {| inst_props := props;
                 farms := farms s;
                 console := console s;
                 microtasks := microtasks s;
                 setFarms_log := setFarms_log s |} in
    if url_changed then fetchImportantData (url props) s' else (tt, s').

Definition step (s : Instance) (e : Event) : Instance :=
  match e with
  | ev_render props => exec (rerender props) s
  | ev_microtask => exec microtask s
  end.

Definition run (s : Instance) (es : list Event) : Instance := foldl step s es.

End RemoteCall.

End ReactBasics.

(** ** The second copy of the component (list keys and a button added) *)
Module ReactBasicsKeyed.

Definition isNonEmptyString (str : option string) : bool :=
  match str with
  | Some s => (0 <? String.length s)%nat   (* typeof str === 'string' && str.length > 0 *)
  | None => false
  end.

(** [function onClickHandler(value)] *)
Definition onClickHandler (value : string) (out : Console) : unit * Console :=
  (tt, out ++ [value]).

Definition getFooterText (footerText : option string) : string :=
  if isNonEmptyString footerText
  then match footerText with
       | Some s => s
       | None => "no footer"   (* not reached: the guard narrowed it to a string *)
       end
  else "no footer".

Definition MyFunctionComponent (props : Props) (farms : nullable (list IFarms))
  : Result (option ReactNode) :=
  let show := default true (show props) in
  if show then
    match array_mapi farms (λ farm index,
            element "p" (Some ("react-basics-" +:+ pretty index)) []
                    [text (name farm)]) with
    | ok ps =>
        ok (Some (fragment
          [ node_array ps;
            element "button" None
                    [("type", attr_string "button"); ("onClick", attr_handler "click")]
                    [text "Click me"];
            element "p" None [] [text (getFooterText (footerText props))] ]))
    | type_error => type_error
    end
  else ok None.

End ReactBasicsKeyed.

(** * Properties *)

(** Props that differ from [props] in one field. *)
Definition set_show (v : option bool) (props : Props) : Props :=
  {| label := label props; url := url props;
     footerText := footerText props; show := v |}.

Definition set_label (l : string) (props : Props) : Props :=
  {| label := l; url := url props;
     footerText := footerText props; show := show props |}.

(** The [<p>] the first copy renders for a farm. *)
Definition farm_paragraph (farm : IFarms) : ReactNode :=
  element "p" None [] [text (name farm)].

(** The footer [<p>] of both copies. *)
Definition footer_paragraph (props : Props) : ReactNode :=
  element "p" None [] [text (ReactBasics.getFooterText (footerText props))].

Definition farm1 : IFarms := {| name := "farm1"; id := 1; location := None |}.
Definition farm2 : IFarms := {| name := "farm2"; id := 2; location := None |}.

(** The value a queued continuation will pass to [setFarms]. *)
Definition task_value (t : ReactBasics.Task) : nullable (list IFarms) :=
  match t with
  | ReactBasics.resume_fetchImportantData awaited => awaited ?? defined []
  end.

(** The state cell holds an array. *)
Definition is_list (v : nullable (list IFarms)) : Prop := ∃ fs, v = defined fs.

(** What every reachable instance satisfies: the cell holds a list, and
    so did every argument of [setFarms]. *)
Definition farms_ok (s : ReactBasics.Instance) : Prop :=
  is_list (ReactBasics.farms s) ∧ Forall is_list (ReactBasics.setFarms_log s).

(** A remote call that finds no data. *)
Definition absent_call (url : string) (out : Console)
  : Promise (nullable (list IFarms)) * Console :=
  (resolved undefined, out).

(** A remote call that fails. *)
Definition failing_call (url : string) (out : Console)
  : Promise (nullable (list IFarms)) * Console :=
  (rejected "network error", out).

(** The React key of a node. *)
Definition node_key (n : ReactNode) : option string :=
  match n with
  | element _ key _ _ => key
  | text _ | fragment _ | node_array _ => None
  end.

(** The key the second copy gives to the paragraph at [index]. *)
Definition farm_key (index : nat) : string := "react-basics-" +:+ pretty index.

(** The paragraph the second copy renders for the farm at [index]. *)
Definition keyed_paragraph (index : nat) (farm : IFarms) : ReactNode :=
  element "p" (Some (farm_key index)) [] [text (name farm)].

(** The argument of the [onClick] handler among the attributes of an
    element, if it has one. *)
Definition onClick_of (attrs : list (string * AttrValue)) : option string :=
  match list_find (λ a, a.1 = "onClick") attrs with
  | Some (_, (_, attr_handler arg)) => Some arg
  | Some (_, (_, attr_string _)) | None => None
  end.

(** The elements of a node that react to a click, in document order. *)
Fixpoint clickables (n : ReactNode) : list ReactNode :=
  match n with
  | text _ => []
  | element _ _ attrs cs =>
      match onClick_of attrs with
      | Some _ => [n] ++ concat (map clickables cs)
      | None => concat (map clickables cs)
      end
  | fragment cs | node_array cs => concat (map clickables cs)
  end.

(** A click on an element of the second copy runs its handler, which
    calls [onClickHandler]. *)
Definition click (n : ReactNode) (out : Console) : Console :=
  match n with
  | element _ _ attrs _ =>
      match onClick_of attrs with
      | Some arg => snd (ReactBasicsKeyed.onClickHandler arg out)
      | None => out
      end
  | text _ | fragment _ | node_array _ => out
  end.

(** The paragraphs a render shows: none for [null]. *)
Definition shown_paragraphs (r : Result (option ReactNode)) : Result (list string) :=
  match r with
  | ok out => ok (from_option paragraphs [] out)
  | type_error => type_error
  end.

(** The urls for which a sequence of events starts a fetch, oldest first:
    those of the renders whose url differs from the url of the render
    before; [prev] is the url of the last render so far. *)
Fixpoint fetched_urls (prev : string) (es : list ReactBasics.Event) : list string :=
  match es with
  | [] => []
  | ReactBasics.ev_render props :: es' =>
      (if String.eqb prev (url props) then [] else [url props])
      ++ fetched_urls (url props) es'
  | ReactBasics.ev_microtask :: es' => fetched_urls prev es'
  end.

(** Every [setFarms] argument so far, followed by those the queued
    continuations will pass. *)
Definition settled_log (s : ReactBasics.Instance) : list (nullable (list IFarms)) :=
  ReactBasics.setFarms_log s ++ map task_value (ReactBasics.microtasks s).

(** The same events with every props replaced by [g] of it. *)
Definition map_event (g : Props → Props) (e : ReactBasics.Event) : ReactBasics.Event :=
  match e with
  | ReactBasics.ev_render props => ReactBasics.ev_render (g props)
  | ReactBasics.ev_microtask => ReactBasics.ev_microtask
  end.

(** Two instances that differ at most in the props of their last render,
    and there not in the url. *)
Definition same_state (s s' : ReactBasics.Instance) : Prop :=
  ReactBasics.farms s = ReactBasics.farms s'
  ∧ ReactBasics.console s = ReactBasics.console s'
  ∧ ReactBasics.microtasks s = ReactBasics.microtasks s'
  ∧ ReactBasics.setFarms_log s = ReactBasics.setFarms_log s'
  ∧ url (ReactBasics.inst_props s) = url (ReactBasics.inst_props s').

(** ** The component body *)

Section Render.
Import ReactBasics.

Lemma shown_cases (props : Props) :
  show props ≠ Some false → default true (show props) = true.
Proof. destruct (show props) as [[]|]; simpl; congruence. Qed.

Lemma render_shown (props : Props) (fs : list IFarms) :
  show props ≠ Some false →
  MyFunctionComponent props (defined fs) =
    ok (Some (fragment [node_array (map farm_paragraph fs); footer_paragraph props])).
Proof.
  intros Hshow. unfold MyFunctionComponent.
  rewrite (shown_cases _ Hshow). reflexivity.
Qed.

Lemma render_hidden (props : Props) (farms : nullable (list IFarms)) :
  show props = Some false → MyFunctionComponent props farms = ok None.
Proof. intros Hshow. unfold MyFunctionComponent. rewrite Hshow. reflexivity. Qed.

Lemma paragraphs_farm_paragraphs (fs : list IFarms) :
  concat (map paragraphs (map farm_paragraph fs)) = map name fs.
Proof.
  induction fs as [|farm fs IH]; simpl.
  - reflexivity.
  - rewrite IH. reflexivity.
Qed.

Lemma farm_paragraphs_from_names (fs : list IFarms) :
  map farm_paragraph fs = map (λ n, element "p" None [] [text n]) (map name fs).
Proof.
  induction fs as [|farm fs IH]; simpl; [reflexivity|].
  rewrite IH. reflexivity.
Qed.

Lemma textContent_farm_paragraphs (fs : list IFarms) :
  map textContent (map farm_paragraph fs) = map name fs.
Proof.
  induction fs as [|farm fs IH]; simpl; [reflexivity|].
  rewrite IH. reflexivity.
Qed.

Lemma paragraphs_shown (props : Props) (fs : list IFarms) :
  paragraphs (fragment [node_array (map farm_paragraph fs); footer_paragraph props])
  = map name fs ++ [getFooterText (footerText props)].
Proof.
  cbn [paragraphs map concat]. rewrite paragraphs_farm_paragraphs.
  reflexivity.
Qed.

Lemma getFooterText_cases (ft : option string) :
  getFooterText ft =
    match ft with
    | Some (String c s) => String c s
    | Some EmptyString | None => "no footer"
    end.
Proof. destruct ft as [[|c s]|]; reflexivity. Qed.

End Render.

(** C1. Whenever the component is shown, its last paragraph is the footer,
    and the footer is the [footerText] prop itself when that is a string of
    length greater than zero and the placeholder ["no footer"] when it is
    [undefined] or the empty string; that is, [getFooterText] returns its
    argument when [isNonEmptyString] accepts it and ["no footer"] otherwise. *)
Theorem footer_is_text_or_placeholder (props : Props) (fs : list IFarms) :
  show props ≠ Some false →
  ∃ out,
    ReactBasics.MyFunctionComponent props (defined fs) = ok (Some out)
    ∧ last (paragraphs out) = Some (ReactBasics.getFooterText (footerText props))
    ∧ ReactBasics.getFooterText (footerText props) =
        match footerText props with
        | Some s => if bool_decide (0 < String.length s) then s else "no footer"
        | None => "no footer"
        end
    ∧ ReactBasics.getFooterText (footerText props) =
        (if ReactBasics.isNonEmptyString (footerText props)
         then default "" (footerText props) else "no footer")
    ∧ ReactBasics.getFooterText None = "no footer"
    ∧ ReactBasics.getFooterText (Some "") = "no footer".
Proof.
  intros Hshow. eexists. split; [apply render_shown, Hshow|].
  split.
  { rewrite paragraphs_shown. apply last_snoc. }
  split.
  { rewrite getFooterText_cases. destruct (footerText props) as [[|c s]|]; reflexivity. }
  split; [|split; reflexivity].
  destruct (footerText props) as [[|c s]|]; reflexivity.
Qed.

Lemma footer_is_text_or_placeholder_witness :
  show bootstrap_props ≠ Some false
  ∧ ∃ out,
      ReactBasics.MyFunctionComponent bootstrap_props (defined [farm1]) = ok (Some out)
      ∧ last (paragraphs out) = Some "This is the footer".
Proof.
  split; [discriminate|].
  destruct (footer_is_text_or_placeholder bootstrap_props [farm1]) as (out & Hout & Hlast & _).
  - discriminate.
  - exists out. split; [exact Hout | exact Hlast].
Defined.

(** C2. With [show] false the component returns [null], whatever the farms
    state holds; with [show] true or left out it returns the whole output,
    the farm paragraphs followed by the footer. *)
Theorem show_false_renders_nothing
    (props : Props) (farms : nullable (list IFarms)) (fs : list IFarms) :
  ReactBasics.MyFunctionComponent (set_show (Some false) props) farms = ok None
  ∧ ReactBasics.MyFunctionComponent (set_show (Some true) props) (defined fs) =
      ok (Some (fragment [node_array (map farm_paragraph fs); footer_paragraph props]))
  ∧ ReactBasics.MyFunctionComponent (set_show None props) (defined fs) =
      ok (Some (fragment [node_array (map farm_paragraph fs); footer_paragraph props])).
Proof.
  split; [|split].
  - apply render_hidden. reflexivity.
  - apply (render_shown (set_show (Some true) props)). discriminate.
  - apply (render_shown (set_show None props)). discriminate.
Qed.

(** C7. Whenever the component is shown, the output holds one paragraph per
    farm, in the order of the list, each with that farm's name, and then the
    footer; farms with the same names render the same, whatever their [id]
    and [location]. *)
Theorem one_paragraph_per_farm (props : Props) (fs : list IFarms) :
  show props ≠ Some false →
  ∃ ps footer,
    ReactBasics.MyFunctionComponent props (defined fs) =
      ok (Some (fragment [node_array ps; footer]))
    ∧ length ps = length fs
    ∧ (∀ i farm, fs !! i = Some farm →
         ps !! i = Some (element "p" None [] [text (name farm)]))
    ∧ paragraphs (node_array ps) = map name fs
    ∧ paragraphs (fragment [node_array ps; footer]) =
        map name fs ++ [ReactBasics.getFooterText (footerText props)]
    ∧ (∀ fs', map name fs' = map name fs →
         ReactBasics.MyFunctionComponent props (defined fs') =
         ReactBasics.MyFunctionComponent props (defined fs)).
Proof.
  intros Hshow.
  exists (map farm_paragraph fs), (footer_paragraph props).
  split; [apply render_shown, Hshow|].
  split; [apply length_map|].
  split.
  { intros i farm Hi. rewrite list_lookup_fmap, Hi. reflexivity. }
  split.
  { cbn [paragraphs]. apply paragraphs_farm_paragraphs. }
  split; [apply paragraphs_shown|].
  intros fs' Hnames. rewrite !render_shown by exact Hshow.
  rewrite !farm_paragraphs_from_names, Hnames. reflexivity.
Qed.

Lemma one_paragraph_per_farm_witness :
  show bootstrap_props ≠ Some false
  ∧ ∃ ps footer,
      ReactBasics.MyFunctionComponent bootstrap_props (defined [farm1; farm2]) =
        ok (Some (fragment [node_array ps; footer]))
      ∧ paragraphs (node_array ps) = ["farm1"; "farm2"].
Proof.
  split; [discriminate|].
  destruct (one_paragraph_per_farm bootstrap_props [farm1; farm2])
    as (ps & footer & Hout & _ & _ & Hps & _).
  - discriminate.
  - exists ps, footer. split; [exact Hout | exact Hps].
Defined.

(** C8, as the specification words it, fails: with the props of the
    bootstrap file the output is produced and its text does not include the
    label. *)
Lemma label_not_rendered :
  ¬ (∀ props fs, show props ≠ Some false →
       ∃ out, ReactBasics.MyFunctionComponent props (defined fs) = ok (Some out)
              ∧ includes (textContent out) (label props) = true)
  ∧ ∃ out,
      ReactBasics.MyFunctionComponent bootstrap_props (defined [farm2]) = ok (Some out)
      ∧ textContent out = "farm2This is the footer"
      ∧ includes (textContent out) (label bootstrap_props) = false.
Proof.
  split.
  - intros Hclaim.
    destruct (Hclaim bootstrap_props [farm2]) as (out & Hout & Hincl); [discriminate|].
    vm_compute in Hout. injection Hout as <-. vm_compute in Hincl. discriminate.
  - eexists. split; [reflexivity|]. split; reflexivity.
Qed.

(** C8, amended. The component never reads the [label] prop: props that
    differ only in their label give the same output, and what is shown is
    only the list of farm names followed by the footer. *)
Theorem label_is_ignored
    (props : Props) (l : string) (farms : nullable (list IFarms)) (fs : list IFarms) :
  ReactBasics.MyFunctionComponent (set_label l props) farms =
    ReactBasics.MyFunctionComponent props farms
  ∧ ∃ out,
      ReactBasics.MyFunctionComponent (set_show (Some true) (set_label l props)) (defined fs)
        = ok (Some out)
      ∧ paragraphs out = map name fs ++ [ReactBasics.getFooterText (footerText props)]
      ∧ textContent out =
          String.concat "" [String.concat "" (map name fs);
                            ReactBasics.getFooterText (footerText props)].
Proof.
  split; [reflexivity|].
  eexists. split; [apply render_shown; discriminate|].
  split; [exact (paragraphs_shown props fs)|].
  cbn [textContent map]. rewrite textContent_farm_paragraphs. reflexivity.
Qed.

(** C10. The two copies agree on the footer and on visibility: their
    [getFooterText] return the same string for every [footerText], and each
    returns [null] exactly when [show] is false. *)
Theorem copies_agree_on_footer_and_visibility
    (props : Props) (farms : nullable (list IFarms)) :
  ReactBasics.getFooterText (footerText props) =
    ReactBasicsKeyed.getFooterText (footerText props)
  ∧ (ReactBasics.MyFunctionComponent props farms = ok None ↔ show props = Some false)
  ∧ (ReactBasicsKeyed.MyFunctionComponent props farms = ok None
       ↔ show props = Some false)
  ∧ (ReactBasics.MyFunctionComponent props farms = ok None
       ↔ ReactBasicsKeyed.MyFunctionComponent props farms = ok None)
  ∧ last (from_option paragraphs []
            (match ReactBasicsKeyed.MyFunctionComponent props farms with
             | ok out => out | type_error => None end))
    = last (from_option paragraphs []
            (match ReactBasics.MyFunctionComponent props farms with
             | ok out => out | type_error => None end)).
Proof.
  assert (Hrb : ReactBasics.MyFunctionComponent props farms = ok None
                ↔ show props = Some false).
  { unfold ReactBasics.MyFunctionComponent.
    destruct (show props) as [[]|], farms; simpl; split; congruence. }
  assert (Hkeyed : ReactBasicsKeyed.MyFunctionComponent props farms = ok None
                   ↔ show props = Some false).
  { unfold ReactBasicsKeyed.MyFunctionComponent.
    destruct (show props) as [[]|], farms; simpl; split; congruence. }
  split; [reflexivity|].
  split; [exact Hrb|]. split; [exact Hkeyed|].
  split; [rewrite Hrb, Hkeyed; reflexivity|].
  unfold ReactBasics.MyFunctionComponent, ReactBasicsKeyed.MyFunctionComponent.
  destruct (default true (show props)); [|reflexivity].
  destruct farms as [| |fs]; [reflexivity..|].
  cbn [array_map array_mapi from_option paragraphs map concat String.eqb Ascii.eqb
       Bool.eqb].
  change (String.eqb "button" "p") with false. change (String.eqb "p" "p") with true.
  cbn iota. cbn [textContent map String.concat app].
  rewrite !last_snoc. reflexivity.
Qed.

(** C5. For every url the mocked call resolves, and to the same value, the
    one-element list holding [farm2]: it is never rejected, never
    [undefined] or [null], and the url only reaches the console. *)
Theorem azureFunctionCall_fixed_value (url url' : string) (out out' : Console) :
  ReactBasics.azureFunctionCall url out = (resolved (defined [farm2]), out ++ [url])
  ∧ fst (ReactBasics.azureFunctionCall url out) =
      fst (ReactBasics.azureFunctionCall url' out')
  ∧ (∀ reason, fst (ReactBasics.azureFunctionCall url out) ≠ rejected reason)
  ∧ fst (ReactBasics.azureFunctionCall url out) ≠ resolved undefined
  ∧ fst (ReactBasics.azureFunctionCall url out) ≠ resolved null.
Proof.
  split; [reflexivity|]. split; [reflexivity|].
  split; [|split]; simpl; intros; discriminate.
Qed.

(** ** The state cell over the life of the component *)

Section Lifecycle.
Import ReactBasics.

Lemma nullish_coalesce_list (v : nullable (list IFarms)) (d : list IFarms) :
  is_list (v ?? defined d).
Proof. destruct v as [| |fs]; simpl; [exists d | exists d | exists fs]; reflexivity. Qed.

Lemma task_value_list (t : Task) : is_list (task_value t).
Proof. destruct t. apply nullish_coalesce_list. Qed.

Lemma exec_microtask_cons (s : Instance) (t : Task) (rest : list Task) :
  microtasks s = t :: rest →
  exec microtask s =
    {| inst_props := inst_props s;
       farms := task_value t;
       console := console s;
       microtasks := rest;
       setFarms_log := setFarms_log s ++ [task_value t] |}.
Proof.
  intros Hq. unfold exec, microtask. rewrite Hq. destruct t. reflexivity.
Qed.

Lemma exec_microtask_nil (s : Instance) :
  microtasks s = [] → exec microtask s = s.
Proof. intros Hq. unfold exec, microtask. rewrite Hq. reflexivity. Qed.

Lemma iter_microtask (q : list Task) :
  ∀ s, microtasks s = q →
    Nat.iter (length q) (exec microtask) s =
      {| inst_props := inst_props s;
         farms := default (farms s) (last (map task_value q));
         console := console s;
         microtasks := [];
         setFarms_log := setFarms_log s ++ map task_value q |}.
Proof.
  induction q as [|t rest IH]; intros s Hq.
  - destruct s; simpl in *. subst. rewrite app_nil_r. reflexivity.
  - cbn [length]. rewrite Nat.iter_succ_r.
    rewrite (exec_microtask_cons s t rest Hq).
    rewrite IH by reflexivity. cbn [inst_props farms console setFarms_log].
    cbn [map]. rewrite last_cons, <- app_assoc.
    destruct (last (map task_value rest)); reflexivity.
Qed.

(** Draining empties the queue and performs the queued [setFarms] calls
    in order; the cell ends with the value of the newest one. *)
Lemma drain_spec (s : Instance) :
  drain s =
    {| inst_props := inst_props s;
       farms := default (farms s) (last (map task_value (microtasks s)));
       console := console s;
       microtasks := [];
       setFarms_log := setFarms_log s ++ map task_value (microtasks s) |}.
Proof. unfold drain. apply iter_microtask. reflexivity. Qed.

Section AnyCall.
Variable call : string → Console → Promise (nullable (list IFarms)) * Console.

Lemma exec_fetch_resolved (url : string) (s : Instance)
    (v : nullable (list IFarms)) (out' : Console) :
  call url (console s) = (resolved v, out') →
  exec (fetchImportantData call url) s =
    {| inst_props := inst_props s;
       farms := farms s;
       console := out';
       microtasks := microtasks s ++ [resume_fetchImportantData v];
       setFarms_log := setFarms_log s |}.
Proof.
  intros Hcall. unfold exec, fetchImportantData, bind, with_console.
  rewrite Hcall. reflexivity.
Qed.

Lemma exec_fetch_rejected (url : string) (s : Instance)
    (reason : string) (out' : Console) :
  call url (console s) = (rejected reason, out') →
  exec (fetchImportantData call url) s =
    {| inst_props := inst_props s;
       farms := farms s;
       console := out';
       microtasks := microtasks s;
       setFarms_log := setFarms_log s |}.
Proof.
  intros Hcall. unfold exec, fetchImportantData, bind, with_console.
  rewrite Hcall. reflexivity.
Qed.

(** A fetch run to completion leaves the value it awaited, with a
    nullish one replaced by the empty list, as the content of the cell
    and as the last [setFarms] call. *)
Lemma fetch_then_drain (url : string) (s : Instance)
    (v : nullable (list IFarms)) (out' : Console) :
  call url (console s) = (resolved v, out') →
  let s' := drain (exec (fetchImportantData call url) s) in
  farms s' = v ?? defined []
  ∧ microtasks s' = []
  ∧ setFarms_log s' = setFarms_log (drain s) ++ [v ?? defined []]
  ∧ inst_props s' = inst_props s.
Proof.
  intros Hcall s'. subst s'.
  rewrite (exec_fetch_resolved url s v out' Hcall), !drain_spec.
  cbn [inst_props farms console microtasks setFarms_log].
  rewrite map_app. cbn [map task_value].
  rewrite last_snoc, app_assoc. repeat split; reflexivity.
Qed.

End AnyCall.

End Lifecycle.



(** C4. When the remote call resolves to [undefined], the completed fetch
    sets the state cell to the empty list: [setFarms] is called once more,
    with the empty list, so the cell is neither left as it was nor does the
    component fail to render. *)
Theorem undefined_fetch_gives_empty_list
    (call : string → Console → Promise (nullable (list IFarms)) * Console)
    (url : string) (s : ReactBasics.Instance) (out' : Console) :
  call url (ReactBasics.console s) = (resolved undefined, out') →
  let s' := ReactBasics.drain (ReactBasics.exec (ReactBasics.fetchImportantData call url) s) in
  ReactBasics.farms s' = defined []
  ∧ ReactBasics.setFarms_log s' =
      ReactBasics.setFarms_log (ReactBasics.drain s) ++ [defined []]
  ∧ ReactBasics.view s' =
      ReactBasics.MyFunctionComponent (ReactBasics.inst_props s) (defined [])
  ∧ ReactBasics.view s' ≠ type_error.
Proof.
  intros Hcall s'.
  destruct (fetch_then_drain call url s undefined out' Hcall) as (Hfarms & _ & Hlog & Hprops).
  fold s' in Hfarms, Hlog, Hprops. simpl in Hfarms, Hlog.
  split; [exact Hfarms|]. split; [exact Hlog|].
  unfold ReactBasics.view. rewrite Hfarms, Hprops.
  split; [reflexivity|].
  unfold ReactBasics.MyFunctionComponent.
  destruct (default true (show (ReactBasics.inst_props s))); simpl; discriminate.
Qed.

Lemma undefined_fetch_gives_empty_list_witness :
  let s := ReactBasics.drain (ReactBasics.mount ReactBasics.azureFunctionCall bootstrap_props []) in
  ReactBasics.farms s = defined [farm2]
  ∧ ReactBasics.farms
      (ReactBasics.drain
         (ReactBasics.exec (ReactBasics.fetchImportantData absent_call "www.google.com") s))
    = defined [].
Proof.
  intros s. split; [reflexivity|].
  exact (proj1 (undefined_fetch_gives_empty_list absent_call "www.google.com" s
                  ["www.google.com"] eq_refl)).
Defined.

(** ** The state cell always holds a list *)

Section Invariant.
Import ReactBasics.
Variable call : string → Console → Promise (nullable (list IFarms)) * Console.

Lemma farms_ok_setFarms (fs : list IFarms) (s : Instance) :
  farms_ok s → farms_ok (exec (setFarms (defined fs)) s).
Proof.
  intros [_ Hlog]. split; simpl.
  - exists fs. reflexivity.
  - apply Forall_app. split; [exact Hlog|].
    constructor; [exists fs; reflexivity | constructor].
Qed.

Lemma farms_ok_fetch (url : string) (s : Instance) :
  farms_ok s → farms_ok (exec (fetchImportantData call url) s).
Proof.
  intros Hok. unfold exec, fetchImportantData, bind, with_console.
  destruct (call url (console s)) as [[v|reason] out']; exact Hok.
Qed.

Lemma farms_ok_microtask (s : Instance) :
  farms_ok s → farms_ok (exec microtask s).
Proof.
  intros [Hfarms Hlog].
  destruct (microtasks s) as [|t rest] eqn:Hq.
  - rewrite exec_microtask_nil by exact Hq. split; assumption.
  - rewrite (exec_microtask_cons s t rest Hq). split; simpl.
    + apply task_value_list.
    + apply Forall_app. split; [exact Hlog|].
      constructor; [apply task_value_list | constructor].
Qed.

Lemma farms_ok_rerender (props : Props) (s : Instance) :
  farms_ok s → farms_ok (exec (rerender call props) s).
Proof.
  intros Hok. unfold exec, rerender.
  destruct (negb (String.eqb (url (inst_props s)) (url props))).
  - apply farms_ok_fetch. exact Hok.
  - exact Hok.
Qed.

Lemma farms_ok_mount (props : Props) (out : Console) :
  farms_ok (mount call props out).
Proof.
  unfold mount.
  change (exec (fetchFarms;; fetchImportantData call (url props)) (first_render props out))
    with (exec (fetchImportantData call (url props))
            (exec (setFarms (defined [farm1])) (first_render props out))).
  apply farms_ok_fetch, farms_ok_setFarms.
  split; [exists []; reflexivity | constructor].
Qed.

Lemma farms_ok_run (es : list Event) :
  ∀ s, farms_ok s → farms_ok (run call s es).
Proof.
  induction es as [|e es IH]; intros s Hok; [exact Hok|].
  apply IH. destruct e as [props|]; simpl.
  - apply farms_ok_rerender, Hok.
  - apply farms_ok_microtask, Hok.
Qed.

Lemma last_task_value_list (q : list Task) :
  ∀ d, is_list d → is_list (default d (last (map task_value q))).
Proof.
  induction q as [|t rest IH]; intros d Hd; [exact Hd|].
  cbn [map]. rewrite last_cons.
  specialize (IH (task_value t) (task_value_list t)).
  destruct (last (map task_value rest)); exact IH.
Qed.

Lemma view_defined (s : Instance) : is_list (farms s) → view s ≠ type_error.
Proof.
  intros [fs Hfs]. unfold view, MyFunctionComponent. rewrite Hfs.
  destruct (default true (show (inst_props s))); simpl; discriminate.
Qed.

End Invariant.

(** C9. The farms state is always a list, never [undefined] or [null]:
    the first render starts it as the empty list, and after mounting and
    any sequence of renders and completed continuations, whatever the
    remote call answers (a list, [undefined], [null] or a rejection), the
    cell holds a list, every value ever passed to [setFarms] was a list, and
    rendering does not fail on [farms.map]. *)
Theorem farms_always_a_list
    (call : string → Console → Promise (nullable (list IFarms)) * Console)
    (props : Props) (out : Console) (es : list ReactBasics.Event) :
  let s := ReactBasics.run call (ReactBasics.mount call props out) es in
  ReactBasics.farms (ReactBasics.first_render props out) = defined []
  ∧ is_list (ReactBasics.farms s)
  ∧ Forall is_list (ReactBasics.setFarms_log s)
  ∧ is_list (ReactBasics.farms (ReactBasics.drain s))
  ∧ ReactBasics.view s ≠ type_error.
Proof.
  intros s.
  assert (Hok : farms_ok s) by apply farms_ok_run, farms_ok_mount.
  split; [reflexivity|].
  split; [apply Hok|]. split; [apply Hok|].
  split; [|apply view_defined, Hok].
  rewrite drain_spec. cbn [ReactBasics.farms].
  apply last_task_value_list, Hok.
Qed.

(** ** Mounting and url changes *)

(** C6, as the specification words it, fails: mounting with the props of
    the bootstrap file and letting the pending continuation run, with no
    change of url at all, sets the state twice, first to [farm1] and then
    to the fetched [farm2]. *)
Lemma mount_sets_farms_twice :
  let s := ReactBasics.drain (ReactBasics.mount ReactBasics.azureFunctionCall bootstrap_props []) in
  ¬ (∃ v, ReactBasics.setFarms_log s = [v])
  ∧ ReactBasics.setFarms_log s = [defined [farm1]; defined [farm2]]
  ∧ ReactBasics.farms s = defined [farm2].
Proof.
  intros s. split; [|split; reflexivity].
  intros [v Hv]. vm_compute in Hv. discriminate.
Qed.

(** C6, amended. The farms state starts as the empty list.  Mounting sets
    it twice: the mount effect [fetchFarms] sets it to [farm1], and the url
    effect, which also runs on mount, starts a fetch whose continuation then
    replaces it with the fetched batch.  After that a render sets the state
    only when the url prop changed: each change of url starts exactly one
    new fetch, whose completion replaces the state, and a render with the
    same url sets nothing. *)
Theorem farms_lifecycle (props props' : Props) (out : Console) (s : ReactBasics.Instance) :
  let call := ReactBasics.azureFunctionCall in
  let mounted := ReactBasics.mount call props out in
  let s' := ReactBasics.exec (ReactBasics.rerender call props') s in
  ReactBasics.farms (ReactBasics.first_render props out) = defined []
  ∧ ReactBasics.setFarms_log mounted = [defined [farm1]]
  ∧ ReactBasics.microtasks mounted = [ReactBasics.resume_fetchImportantData (defined [farm2])]
  ∧ ReactBasics.setFarms_log (ReactBasics.drain mounted) = [defined [farm1]; defined [farm2]]
  ∧ ReactBasics.farms (ReactBasics.drain mounted) = defined [farm2]
  ∧ ReactBasics.microtasks s' =
      ReactBasics.microtasks s ++
      (if bool_decide (url props' = url (ReactBasics.inst_props s)) then []
       else [ReactBasics.resume_fetchImportantData (defined [farm2])])
  ∧ ReactBasics.setFarms_log s' = ReactBasics.setFarms_log s
  ∧ ReactBasics.setFarms_log (ReactBasics.drain s') =
      ReactBasics.setFarms_log (ReactBasics.drain s) ++
      (if bool_decide (url props' = url (ReactBasics.inst_props s)) then []
       else [defined [farm2]])
  ∧ ReactBasics.farms (ReactBasics.drain s') =
      (if bool_decide (url props' = url (ReactBasics.inst_props s))
       then ReactBasics.farms (ReactBasics.drain s)
       else defined [farm2]).
Proof.
  intros call mounted s'.
  do 5 (split; [reflexivity|]).
  subst s'. unfold ReactBasics.exec, ReactBasics.rerender.
  destruct (String.eqb_spec (url (ReactBasics.inst_props s)) (url props')) as [Heq|Hne].
  - rewrite bool_decide_eq_true_2 by (symmetry; exact Heq).
    cbn [negb snd]. rewrite !drain_spec, !app_nil_r. repeat split; reflexivity.
  - rewrite bool_decide_eq_false_2 by (intros Heq; apply Hne; symmetry; exact Heq).
    cbn [negb].
    change (snd (ReactBasics.fetchImportantData call (url props') ?s0))
      with (ReactBasics.exec (ReactBasics.fetchImportantData call (url props')) s0).
    rewrite !drain_spec.
    split; [reflexivity|]. split; [reflexivity|].
    cbn. rewrite map_app, app_assoc. cbn [map task_value nullish_coalesce].
    rewrite last_snoc. split; reflexivity.
Qed.

(** * Further properties of the code *)

(** ** The second copy: keys, paragraphs and the button *)

Section Keyed.

Lemma render_keyed_shown (props : Props) (fs : list IFarms) :
  show props ≠ Some false →
  ReactBasicsKeyed.MyFunctionComponent props (defined fs) =
    ok (Some (fragment
      [ node_array (imap keyed_paragraph fs);
        element "button" None
                [("type", attr_string "button"); ("onClick", attr_handler "click")]
                [text "Click me"];
        element "p" None [] [text (ReactBasicsKeyed.getFooterText (footerText props))] ])).
Proof.
  intros Hshow. unfold ReactBasicsKeyed.MyFunctionComponent.
  rewrite (shown_cases _ Hshow). reflexivity.
Qed.

Lemma farm_key_inj : Inj (=) (=) (λ index, Some (farm_key index)).
Proof.
  intros i j Hij. apply (inj Some) in Hij. unfold farm_key in Hij.
  apply (inj (String.app "react-basics-")) in Hij.
  apply (inj pretty) in Hij. exact Hij.
Qed.

Lemma keyed_paragraphs_keys (fs : list IFarms) :
  map node_key (imap keyed_paragraph fs) =
    map (λ index, Some (farm_key index)) (seq 0 (length fs)).
Proof.
  change (map node_key (imap keyed_paragraph fs))
    with (node_key <$> imap keyed_paragraph fs).
  rewrite fmap_imap. apply (imap_seq_0 fs (λ index, Some (farm_key index))).
Qed.

(** Whatever the keys are, the paragraphs show the names in order ... *)
Lemma paragraphs_any_keys (fs : list IFarms) :
  ∀ k : nat → option string,
    concat (map paragraphs (imap (λ index farm, element "p" (k index) [] [text (name farm)]) fs))
    = map name fs.
Proof.
  induction fs as [|farm fs IH]; intros k; [reflexivity|].
  rewrite imap_cons. cbn [map concat paragraphs textContent String.concat app].
  change (String.eqb "p" "p") with true. cbn iota. cbn [app].
  f_equal. apply (IH (λ index, k (S index))).
Qed.

(** ... and none of them reacts to a click. *)
Lemma clickables_any_keys (fs : list IFarms) :
  ∀ k : nat → option string,
    concat (map clickables (imap (λ index farm, element "p" (k index) [] [text (name farm)]) fs))
    = [].
Proof.
  induction fs as [|farm fs IH]; intros k; [reflexivity|].
  rewrite imap_cons. cbn [map concat clickables onClick_of list_find app].
  apply (IH (λ index, k (S index))).
Qed.

End Keyed.

(** X1. In the second copy the paragraph of the farm at position [i] has
    the key ["react-basics-i"], so the keys of the farm paragraphs are
    pairwise distinct however many farms there are and even when farms
    repeat. *)
Theorem keyed_paragraph_keys_distinct (props : Props) (fs : list IFarms) :
  show props ≠ Some false →
  ∃ ps button footer,
    ReactBasicsKeyed.MyFunctionComponent props (defined fs) =
      ok (Some (fragment [node_array ps; button; footer]))
    ∧ length ps = length fs
    ∧ (∀ i farm, fs !! i = Some farm →
         ps !! i = Some (element "p" (Some (farm_key i)) [] [text (name farm)]))
    ∧ map node_key ps = map (λ index, Some (farm_key index)) (seq 0 (length fs))
    ∧ NoDup (map node_key ps).
Proof.
  intros Hshow. do 3 eexists.
  split; [apply render_keyed_shown, Hshow|].
  split; [apply length_imap|].
  split.
  { intros i farm Hi. rewrite list_lookup_imap, Hi. reflexivity. }
  split; [apply keyed_paragraphs_keys|].
  rewrite keyed_paragraphs_keys.
  apply (@NoDup_fmap_2 _ _ (λ index, Some (farm_key index)) farm_key_inj).
  apply NoDup_seq.
Qed.

Lemma keyed_paragraph_keys_distinct_witness :
  show bootstrap_props ≠ Some false
  ∧ ∃ ps button footer,
      ReactBasicsKeyed.MyFunctionComponent bootstrap_props (defined [farm1; farm1]) =
        ok (Some (fragment [node_array ps; button; footer]))
      ∧ map node_key ps = [Some "react-basics-0"; Some "react-basics-1"]
      ∧ NoDup (map node_key ps).
Proof.
  split; [discriminate|].
  destruct (keyed_paragraph_keys_distinct bootstrap_props [farm1; farm1])
    as (ps & button & footer & Hout & _ & _ & Hkeys & Hnodup).
  - discriminate.
  - exists ps, button, footer. split; [exact Hout|]. split; [exact Hkeys | exact Hnodup].
Defined.

(** X2. The two copies show the same paragraphs: for every props and every
    content of the state cell, either both fail on [farms.map], or both
    render, and then the texts of their paragraphs are the same list (empty
    when hidden); the keys and the button of the second copy add none. *)
Theorem copies_show_same_paragraphs (props : Props) (farms : nullable (list IFarms)) :
  shown_paragraphs (ReactBasicsKeyed.MyFunctionComponent props farms) =
    shown_paragraphs (ReactBasics.MyFunctionComponent props farms)
  ∧ shown_paragraphs (ReactBasicsKeyed.MyFunctionComponent props farms) =
      match show props, farms with
      | Some false, _ => ok []
      | _, defined fs => ok (map name fs ++ [ReactBasics.getFooterText (footerText props)])
      | _, _ => type_error
      end.
Proof.
  assert (Hkeyed : shown_paragraphs (ReactBasicsKeyed.MyFunctionComponent props farms) =
      match show props, farms with
      | Some false, _ => ok []
      | _, defined fs => ok (map name fs ++ [ReactBasics.getFooterText (footerText props)])
      | _, _ => type_error
      end).
  { destruct (show props) as [[]|] eqn:Hshow, farms as [| |fs];
      try (unfold ReactBasicsKeyed.MyFunctionComponent; rewrite Hshow; reflexivity).
    all: rewrite render_keyed_shown by congruence.
    all: cbn [shown_paragraphs from_option paragraphs map concat].
    all: unfold keyed_paragraph.
    all: rewrite (paragraphs_any_keys fs (λ index, Some (farm_key index))).
    all: reflexivity. }
  split; [|exact Hkeyed].
  rewrite Hkeyed.
  destruct (show props) as [[]|] eqn:Hshow, farms as [| |fs];
    try (unfold ReactBasics.MyFunctionComponent; rewrite Hshow; reflexivity).
  all: rewrite render_shown by congruence.
  all: cbn [shown_paragraphs from_option]; rewrite paragraphs_shown; reflexivity.
Qed.

(** X3. When the second copy is shown, the button labelled "Click me" is
    the only element that reacts to a click, however many farm paragraphs
    there are, and a click on it prints the one line ["click"]. *)
Theorem keyed_button_is_the_only_clickable
    (props : Props) (fs : list IFarms) (out : Console) :
  show props ≠ Some false →
  ∃ node button,
    ReactBasicsKeyed.MyFunctionComponent props (defined fs) = ok (Some node)
    ∧ clickables node = [button]
    ∧ textContent button = "Click me"
    ∧ click button out = out ++ ["click"].
Proof.
  intros Hshow. do 2 eexists.
  split; [apply render_keyed_shown, Hshow|].
  cbn [clickables map concat]. unfold keyed_paragraph.
  rewrite (clickables_any_keys fs (λ index, Some (farm_key index))).
  split; [reflexivity|]. split; reflexivity.
Qed.

Lemma keyed_button_is_the_only_clickable_witness :
  show bootstrap_props ≠ Some false
  ∧ ∃ node button,
      ReactBasicsKeyed.MyFunctionComponent bootstrap_props (defined [farm1; farm2])
        = ok (Some node)
      ∧ clickables node = [button]
      ∧ click button ["www.google.com"] = ["www.google.com"; "click"].
Proof.
  split; [discriminate|].
  destruct (keyed_button_is_the_only_clickable bootstrap_props [farm1; farm2]
              ["www.google.com"])
    as (node & button & Hout & Hclick & _ & Hlog).
  - discriminate.
  - exists node, button. split; [exact Hout|]. split; [exact Hclick | exact Hlog].
Defined.

(** X4. The footer is never empty: for every [footerText], in both copies,
    [getFooterText] returns a string that [isNonEmptyString] accepts, so
    applying it to its own result changes nothing. *)
Theorem footer_never_empty (ft : option string) :
  ReactBasics.getFooterText ft ≠ ""
  ∧ ReactBasics.isNonEmptyString (Some (ReactBasics.getFooterText ft)) = true
  ∧ ReactBasics.getFooterText (Some (ReactBasics.getFooterText ft)) =
      ReactBasics.getFooterText ft
  ∧ ReactBasicsKeyed.getFooterText ft ≠ ""
  ∧ ReactBasicsKeyed.isNonEmptyString (Some (ReactBasicsKeyed.getFooterText ft)) = true.
Proof.
  destruct ft as [[|c s]|]; repeat split; try reflexivity; discriminate.
Qed.

(** ** The hooks over a whole run *)

Section Runs.
Import ReactBasics.

Lemma exec_rerender_azure (props : Props) (s : Instance) :
  exec (rerender azureFunctionCall props) s =
    let changed := negb (String.eqb (url (inst_props s)) (url props)) in
    {| inst_props := props;
       farms := farms s;
       console := console s ++ (if changed then [url props] else []);
       microtasks := microtasks s ++
         (if changed then [resume_fetchImportantData (defined [farm2])] else []);
       setFarms_log := setFarms_log s |}.
Proof.
  unfold exec, rerender.
  destruct (String.eqb (url (inst_props s)) (url props)); cbn [negb snd].
  - rewrite !app_nil_r. reflexivity.
  - reflexivity.
Qed.

Lemma step_microtask_frame (s : Instance) :
  inst_props (exec microtask s) = inst_props s
  ∧ console (exec microtask s) = console s
  ∧ settled_log (exec microtask s) = settled_log s.
Proof.
  destruct (microtasks s) as [|t rest] eqn:Hq.
  - rewrite exec_microtask_nil by exact Hq. repeat split; reflexivity.
  - rewrite (exec_microtask_cons s t rest Hq). unfold settled_log. rewrite Hq.
    cbn [inst_props console setFarms_log microtasks map].
    rewrite <- app_assoc. repeat split; reflexivity.
Qed.

Lemma console_run (es : list Event) :
  ∀ s, console (run azureFunctionCall s es) =
         console s ++ fetched_urls (url (inst_props s)) es.
Proof.
  induction es as [|[props|] es IH]; intros s; cbn [run foldl step fetched_urls].
  - rewrite app_nil_r. reflexivity.
  - change (foldl (step azureFunctionCall) ?s0 es) with (run azureFunctionCall s0 es).
    rewrite IH, exec_rerender_azure. cbn [inst_props console].
    rewrite <- app_assoc.
    destruct (String.eqb (url (inst_props s)) (url props)); reflexivity.
  - change (foldl (step azureFunctionCall) ?s0 es) with (run azureFunctionCall s0 es).
    rewrite IH. destruct (step_microtask_frame s) as (-> & -> & _). reflexivity.
Qed.

Lemma settled_log_run (es : list Event) :
  ∀ s, settled_log (run azureFunctionCall s es) =
         settled_log s ++
         replicate (length (fetched_urls (url (inst_props s)) es)) (defined [farm2]).
Proof.
  induction es as [|[props|] es IH]; intros s; cbn [run foldl step fetched_urls].
  - cbn [length replicate]. rewrite app_nil_r. reflexivity.
  - change (foldl (step azureFunctionCall) ?s0 es) with (run azureFunctionCall s0 es).
    rewrite IH, exec_rerender_azure. unfold settled_log.
    cbn [inst_props setFarms_log microtasks].
    rewrite map_app, length_app, replicate_add, !app_assoc.
    destruct (String.eqb (url (inst_props s)) (url props)); reflexivity.
  - change (foldl (step azureFunctionCall) ?s0 es) with (run azureFunctionCall s0 es).
    rewrite IH. destruct (step_microtask_frame s) as (-> & _ & ->). reflexivity.
Qed.

Lemma settled_log_drain (s : Instance) : setFarms_log (drain s) = settled_log s.
Proof. rewrite drain_spec. reflexivity. Qed.

(** The cell holds the last value passed to [setFarms]. *)
Section AnyCall.
Variable call : string → Console → Promise (nullable (list IFarms)) * Console.





End AnyCall.

Lemma settled_log_mount (props : Props) (out : Console) :
  settled_log (mount azureFunctionCall props out) = [defined [farm1]; defined [farm2]].
Proof. reflexivity. Qed.

End Runs.

(** X5. The console records exactly the fetches: after mounting and any
    sequence of renders and continuations, it holds what was there before,
    the url of the mount, and then the url of every render whose url differs
    from that of the render before it, in order.  A render with an unchanged
    url fetches nothing, and returning to an earlier url fetches again. *)
Theorem console_lists_fetched_urls
    (props : Props) (out : Console) (es : list ReactBasics.Event) :
  ReactBasics.console
    (ReactBasics.run ReactBasics.azureFunctionCall
       (ReactBasics.mount ReactBasics.azureFunctionCall props out) es)
  = out ++ url props :: fetched_urls (url props) es.
Proof.
  rewrite console_run.
  change (ReactBasics.console (ReactBasics.mount ReactBasics.azureFunctionCall props out))
    with (out ++ [url props]).
  change (url (ReactBasics.inst_props
                 (ReactBasics.mount ReactBasics.azureFunctionCall props out)))
    with (url props).
  rewrite <- app_assoc. reflexivity.
Qed.


(** X7. Over a whole run [setFarms] is called once by the mount effect,
    first and with [farm1], and then once per fetch, with [farm2]: one
    for the mount and one for every change of url.  Renders with an
    unchanged url and the order in which continuations run add nothing. *)
Theorem setFarms_once_per_fetch
    (props : Props) (out : Console) (es : list ReactBasics.Event) :
  ReactBasics.setFarms_log
    (ReactBasics.drain
       (ReactBasics.run ReactBasics.azureFunctionCall
          (ReactBasics.mount ReactBasics.azureFunctionCall props out) es))
  = defined [farm1]
      :: replicate (S (length (fetched_urls (url props) es))) (defined [farm2]).
Proof.
  rewrite settled_log_drain, settled_log_run, settled_log_mount.
  reflexivity.
Qed.

(** X8. When the remote call rejects, [fetchImportantData] has no handler
    for it: nothing is queued and [setFarms] is not called, so the state
    cell keeps the list it had, also after the queue has drained. *)
Theorem rejected_fetch_keeps_farms
    (call : string → Console → Promise (nullable (list IFarms)) * Console)
    (url : string) (s : ReactBasics.Instance) (reason : string) (out' : Console) :
  call url (ReactBasics.console s) = (rejected reason, out') →
  let s' := ReactBasics.exec (ReactBasics.fetchImportantData call url) s in
  ReactBasics.farms s' = ReactBasics.farms s
  ∧ ReactBasics.microtasks s' = ReactBasics.microtasks s
  ∧ ReactBasics.setFarms_log s' = ReactBasics.setFarms_log s
  ∧ ReactBasics.farms (ReactBasics.drain s') = ReactBasics.farms (ReactBasics.drain s)
  ∧ ReactBasics.setFarms_log (ReactBasics.drain s') =
      ReactBasics.setFarms_log (ReactBasics.drain s).
Proof.
  intros Hcall s'. subst s'.
  rewrite (exec_fetch_rejected call url s reason out' Hcall), !drain_spec.
  repeat split; reflexivity.
Qed.

Lemma rejected_fetch_keeps_farms_witness :
  let s := ReactBasics.drain (ReactBasics.mount ReactBasics.azureFunctionCall bootstrap_props []) in
  ReactBasics.farms
    (ReactBasics.drain
       (ReactBasics.exec (ReactBasics.fetchImportantData failing_call "www.bing.com") s))
  = defined [farm2].
Proof.
  intros s.
  exact (proj1 (proj2 (proj2 (proj2
    (rejected_fetch_keeps_farms failing_call "www.bing.com" s "network error"
       ["www.google.com"] eq_refl))))).
Defined.

(** ** The effects see only the url *)

Section UrlOnly.
Import ReactBasics.
Variable call : string → Console → Promise (nullable (list IFarms)) * Console.

Lemma same_state_fetch (u : string) (s s' : Instance) :
  same_state s s' →
  same_state (exec (fetchImportantData call u) s) (exec (fetchImportantData call u) s').
Proof.
  destruct s as [p f c q l], s' as [p' f' c' q' l'].
  intros (Hf & Hc & Hq & Hl & Hu); cbn in Hf, Hc, Hq, Hl, Hu; subst.
  unfold same_state, exec, fetchImportantData, bind, with_console. cbn [console].
  destruct (call u c') as [[v|reason] out']; cbn; repeat split; exact Hu.
Qed.

Lemma same_state_step (g : Props → Props) (e : Event) (s s' : Instance) :
  (∀ props, url (g props) = url props) →
  same_state s s' →
  same_state (step call s e) (step call s' (map_event g e)).
Proof.
  intros Hg Hs. destruct e as [props|]; cbn [step map_event].
  - unfold exec, rerender. rewrite Hg.
    destruct Hs as (Hf & Hc & Hq & Hl & Hu). rewrite <- Hu.
    destruct (negb (String.eqb (url (inst_props s)) (url props))).
    + apply (same_state_fetch (url props)).
      repeat split; cbn; try assumption. symmetry. apply Hg.
    + repeat split; cbn; try assumption. symmetry. apply Hg.
  - destruct Hs as (Hf & Hc & Hq & Hl & Hu).
    destruct (microtasks s) as [|t rest] eqn:Hqs.
    + rewrite (exec_microtask_nil s Hqs), (exec_microtask_nil s') by congruence.
      repeat split; congruence.
    + rewrite (exec_microtask_cons s t rest Hqs).
      rewrite (exec_microtask_cons s' t rest) by congruence.
      repeat split; cbn; congruence.
Qed.

Lemma same_state_run (g : Props → Props) (es : list Event) :
  (∀ props, url (g props) = url props) →
  ∀ s s', same_state s s' →
          same_state (run call s es) (run call s' (map (map_event g) es)).
Proof.
  intros Hg. induction es as [|e es IH]; intros s s' Hs; [exact Hs|].
  cbn [map run foldl]. apply IH, same_state_step; assumption.
Qed.

Lemma same_state_mount (g : Props → Props) (props : Props) (out : Console) :
  url (g props) = url props →
  same_state (mount call props out) (mount call (g props) out).
Proof.
  intros Hg. unfold mount.
  change (exec (fetchFarms;; fetchImportantData call ?u) ?s0)
    with (exec (fetchImportantData call u) (exec (setFarms (defined [farm1])) s0)).
  rewrite Hg. apply same_state_fetch.
  repeat split; cbn. symmetry. exact Hg.
Qed.

End UrlOnly.

(** X9. The effects read no prop but the url: if every props of a run is
    replaced by one with the same url (another label or footer, shown or
    hidden), the state cell, the console, the pending continuations and the
    [setFarms] calls are the same at the end.  A hidden component fetches
    and sets its state exactly as a shown one does. *)
Theorem effects_depend_only_on_url
    (call : string → Console → Promise (nullable (list IFarms)) * Console)
    (g : Props → Props) (props : Props) (out : Console) (es : list ReactBasics.Event) :
  (∀ props, url (g props) = url props) →
  same_state
    (ReactBasics.run call (ReactBasics.mount call props out) es)
    (ReactBasics.run call (ReactBasics.mount call (g props) out) (map (map_event g) es)).
Proof.
  intros Hg. apply same_state_run; [exact Hg|].
  apply same_state_mount, Hg.
Qed.

Lemma effects_depend_only_on_url_witness :
  (∀ props, url (set_show (Some false) props) = url props)
  ∧ ReactBasics.farms
      (ReactBasics.run ReactBasics.azureFunctionCall
         (ReactBasics.mount ReactBasics.azureFunctionCall
            (set_show (Some false) bootstrap_props) [])
         [ReactBasics.ev_microtask])
    = defined [farm2].
Proof.
  split; [reflexivity|].
  destruct (effects_depend_only_on_url ReactBasics.azureFunctionCall
              (set_show (Some false)) bootstrap_props [] [ReactBasics.ev_microtask])
    as (Hfarms & _).
  - reflexivity.
  - refine (eq_trans (eq_sym Hfarms) _). reflexivity.
Defined.
